(** * Verification of the RISC-V C2 code stubs and of the Linux RISC-V
    CPU feature detection of the HotSpot VM.

    Sources:
    - src/hotspot/cpu/riscv/c2_CodeStubs_riscv.cpp
    - src/hotspot/os_cpu/linux_riscv/vm_version_linux_riscv.cpp *)

From Stdlib Require Import ZArith List String Ascii Bool Lia.
Import ListNotations.
Open Scope Z_scope.

(* ------------------------------------------------------------------ *)
(** ** Part 1: c2_CodeStubs_riscv.cpp *)

Module C2CodeStubs.

(** Labels bound by the stubs. *)
Inductive label := L_entry | L_guard | L_continuation.

(** Relocation kinds attached by the stubs. *)
Inductive reloc := R_internal_word | R_runtime_call | R_entry_guard.

(** What the macro assembler appends to the code section: a 4-byte
    instruction, a 2-byte compressed nop, a raw 32-bit data word, a label
    binding or a relocation record (the last two take no bytes). *)
Inductive item :=
| IInsn (mnemonic : string)
| ICNop
| IWord32 (v : Z)
| IBind (l : label)
| IReloc (r : reloc).

Definition item_size (i : item) : Z :=
  match i with
  | IInsn _ => 4
  | ICNop => 2
  | IWord32 _ => 4
  | IBind _ => 0
  | IReloc _ => 0
  end.

Definition code_size (is : list item) : Z :=
  fold_right (fun i acc => item_size i + acc) 0 is.

(** The code section being filled: [m_offset] is [__ offset()], the
    position at which the next byte is emitted. *)
Record Masm := mkMasm { m_offset : Z; m_code : list item }.

(** Global assembler settings read by the primitives: [UseRVC] (compressed
    instructions) and [far_branches()] (code cache larger than the jal
    reach). *)
Record AsmConfig := mkAsmConfig { UseRVC : bool; far_branches : bool }.

(** An emission step; [None] stands for an emission that never finishes
    (the [align] loop below when the offset can never reach the modulus). *)
Definition Emit := Masm -> option Masm.

Definition seq (a b : Emit) : Emit :=
  fun m => match a m with Some m' => b m' | None => None end.

Declare Scope emit_scope.
Delimit Scope emit_scope with emit.
Notation "a ;; b" := (seq a b) (at level 61, right associativity) : emit_scope.
Open Scope emit_scope.

Definition emit_item (i : item) : Emit :=
  fun m => Some (mkMasm (m_offset m + item_size i) (m_code m ++ [i])).

Definition insn (mn : string) : Emit := emit_item (IInsn mn).

(** [__ bind(l)] *)
Definition bind (l : label) : Emit := emit_item (IBind l).

(** [__ relocate(spec)]: records the relocation at the current pc. *)
Definition relocate (r : reloc) : Emit := emit_item (IReloc r).

(** [__ emit_int32(v)] *)
Definition emit_int32 (v : Z) : Emit := emit_item (IWord32 v).

(** Modelled from the spec: the assembler primitives [movptr],
    [la_patchable], [jal]/[j], [far_jump], [nop] and [align] of the RISC-V
    macro assembler are not part of this source set.  Following the
    spec (fixed-width 4-byte instructions, a relocatable address
    materialisation whose length depends on the target distance, an
    alignment directive that pads with nops), they are modelled as:
    - [movptr]: the fixed five-instruction 48-bit address sequence
      (lui, addi, slli, addi, slli), whatever the target;
    - [la_patchable]: one auipc when the target is within the auipc reach,
      else [movptr];
    - a jump to a target at distance [d]: one jal when [d] is even and in
      the signed 21-bit jal reach, else [movptr] then jalr;
    - [far_jump]: with [far_branches()] an [la_patchable] then jalr, else a
      jump as above (both under the target's relocation);
    - [nop]: a compressed 2-byte nop when [UseRVC], else a 4-byte nop;
    - [align(modulus)]: emit nops while [offset() % modulus != 0]. *)
Definition movptr (target : Z) : Emit :=
  insn "lui" ;; insn "addi" ;; insn "slli" ;; insn "addi" ;; insn "slli".



Definition jal_reachable (d : Z) : bool :=
  (- (2 ^ 20) <=? d) && (d <? 2 ^ 20) && Z.even d.

Definition j (d : Z) : Emit :=
  if jal_reachable d then insn "jal" else movptr d ;; insn "jalr".


Definition nop (cfg : AsmConfig) : Emit :=
  emit_item (if UseRVC cfg then ICNop else IInsn "nop").

(** The [while] loop of [align]; [fuel] bounds the iterations, and running
    out of it means the loop would spin forever (with nops of 2 or 4 bytes
    the offset modulo 4 is periodic, so 4 rounds decide it). *)
Fixpoint align_loop (cfg : AsmConfig) (modulus : Z) (fuel : nat) : Emit :=
  fun m =>
    if m_offset m mod modulus =? 0 then Some m
    else match fuel with
         | O => None
         | S n => (nop cfg ;; align_loop cfg modulus n) m
         end.

Definition align (cfg : AsmConfig) (modulus : Z) : Emit :=
  align_loop cfg modulus (Z.to_nat modulus).




(** [C2EntryBarrierStub::emit]: [routine] is the address of the method
    entry barrier routine and [d_cont] the distance from the [j] to the
    [continuation()] label. *)
Definition entry_barrier_emit (cfg : AsmConfig) (routine d_cont : Z) : Emit :=
  bind L_entry ;;
  movptr routine ;;
  insn "jalr" ;;
  j d_cont ;;
  align cfg 4 ;;
  bind L_guard ;;
  relocate R_entry_guard ;;
  emit_int32 0.

Definition label_eqb (l l' : label) : bool :=
  match l, l' with
  | L_entry, L_entry | L_guard, L_guard | L_continuation, L_continuation => true
  | _, _ => false
  end.

(** Offset at which label [l] is bound in code [is] starting at [off]. *)
Fixpoint bound_at (off : Z) (is : list item) (l : label) : option Z :=
  match is with
  | [] => None
  | IBind l' :: rest => if label_eqb l l' then Some off else bound_at off rest l
  | i :: rest => bound_at (off + item_size i) rest l
  end.

End C2CodeStubs.

(* ------------------------------------------------------------------ *)
(** ** Part 2: vm_version_linux_riscv.cpp *)

Module VMVersion.

Local Open Scope string_scope.

(** Modelled from the spec: the feature registry [_feature_list] and the
    [RVFeatureValue] entries (declared with [VM_Version], not in this
    source set).  The spec's Extension record is {name, bit position,
    enabled flag, display token, optional numeric value, single- or
    multi-letter}; the registry is a fixed ordered sequence.  The entries
    are the ones the source names ([ext_I] ... [ext_Zihintpause],
    [mvendorid], [satp_mode], [unaligned_access]) plus the numeric entries
    the spec lists (march, mimpid, vector length). *)
Inductive feature :=
| ext_I | ext_M | ext_A | ext_F | ext_D | ext_C | ext_Q | ext_H | ext_V
| ext_Zicbom | ext_Zicboz | ext_Zicbop
| ext_Zba | ext_Zbb | ext_Zbc | ext_Zbs
| ext_Zicsr | ext_Zifencei | ext_Zic64b | ext_Zihintpause
| mvendorid | marchid | mimpid | satp_mode | unaligned_access
| cpu_vector_length.

Definition feature_eq_dec (a b : feature) : {a = b} + {a <> b}.
Proof. decide equality. Defined.

Definition feature_eqb (a b : feature) : bool :=
  if feature_eq_dec a b then true else false.

(** Registry order ([_feature_list]). *)
Definition feature_list : list feature :=
  [ext_I; ext_M; ext_A; ext_F; ext_D; ext_C; ext_Q; ext_H; ext_V;
   ext_Zicbom; ext_Zicboz; ext_Zicbop;
   ext_Zba; ext_Zbb; ext_Zbc; ext_Zbs;
   ext_Zicsr; ext_Zifencei; ext_Zic64b; ext_Zihintpause;
   mvendorid; marchid; mimpid; satp_mode; unaligned_access;
   cpu_vector_length].

(** [pretty()]: single-letter extensions print as their lower-case letter,
    multi-letter ones as their capitalised name. *)
Definition pretty (f : feature) : string :=
  match f with
  | ext_I => "i" | ext_M => "m" | ext_A => "a" | ext_F => "f"
  | ext_D => "d" | ext_C => "c" | ext_Q => "q" | ext_H => "h"
  | ext_V => "v"
  | ext_Zicbom => "Zicbom" | ext_Zicboz => "Zicboz" | ext_Zicbop => "Zicbop"
  | ext_Zba => "Zba" | ext_Zbb => "Zbb" | ext_Zbc => "Zbc" | ext_Zbs => "Zbs"
  | ext_Zicsr => "Zicsr" | ext_Zifencei => "Zifencei"
  | ext_Zic64b => "Zic64b" | ext_Zihintpause => "Zihintpause"
  | mvendorid => "VendorId" | marchid => "ArchId" | mimpid => "ImpId"
  | satp_mode => "SATP" | unaligned_access => "Unaligned"
  | cpu_vector_length => "VLEN"
  end.

(** [feature_string()]: whether the entry is an extension that appears in
    the features string (the numeric entries do not). *)
Definition feature_string (f : feature) : bool :=
  match f with
  | mvendorid | marchid | mimpid | satp_mode | unaligned_access
  | cpu_vector_length => false
  | _ => true
  end.

(** [RV_NO_FLAG_BIT] is past the word size, so its [nth_bit] is 0. *)
Definition BitsPerWord : Z := 64.
Definition RV_NO_FLAG_BIT : Z := BitsPerWord + 1.

(** [nth_bit(n)]: [n >= BitsPerWord ? 0 : 1 << n]. *)
Definition nth_bit (n : Z) : Z :=
  if Z.geb n BitsPerWord then 0 else Z.shiftl 1 n.

Definition letter_index (c : ascii) : Z :=
  Z.of_nat (nat_of_ascii c) - Z.of_nat (nat_of_ascii "A").

(** The bit number each entry is declared with: the letter's position for
    the single-letter extensions (the Linux HWCAP assignment checked by the
    asserts of [setup_cpu_available_features]), none for the others. *)
Definition bit_num (f : feature) : Z :=
  match f with
  | ext_I => letter_index "I" | ext_M => letter_index "M"
  | ext_A => letter_index "A" | ext_F => letter_index "F"
  | ext_D => letter_index "D" | ext_C => letter_index "C"
  | ext_Q => letter_index "Q" | ext_H => letter_index "H"
  | ext_V => letter_index "V"
  | _ => RV_NO_FLAG_BIT
  end.

(** [feature_bit()] *)
Definition feature_bit (f : feature) : Z := nth_bit (bit_num f).

(** Mutable part of an entry: enabled flag and optional value. *)
Record fstate := mkFstate { f_enabled : bool; f_value : option Z }.

Definition Registry := feature -> fstate.

(** Before detection no entry is enabled and none carries a value. *)
Definition registry_init : Registry := fun _ => mkFstate false None.

(** [enable_feature(value = 0)] *)
Definition enable_feature (f : feature) (v : Z) (r : Registry) : Registry :=
  fun g => if feature_eqb f g then mkFstate true (Some v) else r g.

Definition enabled (r : Registry) (f : feature) : bool := f_enabled (r f).

(** [VM_MODE] and its integer values. *)
Inductive vm_mode := VM_NOTSET | VM_MBARE | VM_SV39 | VM_SV48 | VM_SV57 | VM_SV64.

Definition vm_mode_value (m : vm_mode) : Z :=
  match m with
  | VM_NOTSET => -1 | VM_MBARE => 0 | VM_SV39 => 8
  | VM_SV48 => 9 | VM_SV57 => 10 | VM_SV64 => 11
  end.

Definition is_notset (m : vm_mode) : bool :=
  match m with VM_NOTSET => true | _ => false end.

(** Unaligned-access class set by the vendor overlay. *)
Definition MISALIGNED_FAST : Z := 3.

(** Modelled from the spec: [RiscvHwprobe::probe_features] (not in this
    source set), "an extension-probe interface returning success/failure
    and, on success, an already-populated registry": [None] is failure and
    leaves the registry alone, [Some kvs] is success with the key/value
    data it enabled. *)
Definition probe_features (probe : option (list (feature * Z))) (r : Registry)
  : bool * Registry :=
  match probe with
  | None => (false, r)
  | Some kvs => (true, fold_left (fun r' kv => enable_feature (fst kv) (snd kv) r') kvs r)
  end.

(** [os_aux_features]: [auxv] is [getauxval(AT_HWCAP)]. *)
Definition os_aux_features (auxv : Z) (r : Registry) : Registry :=
  fold_left (fun r' f => if Z.eqb (Z.land (feature_bit f) auxv) 0 then r'
                         else enable_feature f 0 r') feature_list r.

(** C string helpers. *)
Definition strcmp_eq (a b : string) : bool := String.eqb a b.

(** [strchr(s, c)]: the suffix starting at the first [c]. *)
Fixpoint strchr (s : string) (c : ascii) : option string :=
  match s with
  | EmptyString => None
  | String c' rest => if Ascii.eqb c c' then Some s else strchr rest c
  end.

(** [strncmp(buf, w, strlen w) == 0]. *)
Definition starts_with (w buf : string) : bool := String.prefix w buf.

(** [strcspn(s, "\n")]. *)
Fixpoint strcspn_nl (s : string) : nat :=
  match s with
  | EmptyString => 0
  | String c rest => if Ascii.eqb c "010"%char then 0 else S (strcspn_nl rest)
  end.

(** [s + n] *)
Fixpoint drop (n : nat) (s : string) : string :=
  match n, s with
  | O, _ => s
  | S _, EmptyString => EmptyString
  | S n', String _ rest => drop n' rest
  end.

(** [ret[k] = '\0'] on a [strdup]'d string: truncates at [k] when [k] is
    within the string; [k = length] rewrites the terminator; a larger [k]
    writes past the allocation and leaves the string's characters as they
    were. *)
Definition put_nul (k : nat) (s : string) : string :=
  if Nat.leb k (String.length s) then String.substring 0 k s else s.

(** [VM_Version::parse_satp_mode] *)
Definition parse_satp_mode (vm_mode_s : string) : vm_mode :=
  if strcmp_eq vm_mode_s "sv39" then VM_SV39
  else if strcmp_eq vm_mode_s "sv48" then VM_SV48
  else if strcmp_eq vm_mode_s "sv57" then VM_SV57
  else if strcmp_eq vm_mode_s "sv64" then VM_SV64
  else VM_MBARE.

(** Body of the [fgets] loop of [os_uarch_additional_features] on one
    line [buf]. *)
Definition process_line (buf : string) (mode : vm_mode) (ret : option string)
  : vm_mode * option string :=
  match strchr buf ":" with
  | None => (mode, ret)
  | Some p =>
      let mode' :=
        if is_notset mode then
          (if starts_with "mmu" buf then parse_satp_mode p else mode)
        else mode in
      let ret' :=
        match ret with
        | None =>
            if starts_with "uarch" buf
            then Some (put_nul (strcspn_nl p) (drop 2 p))
            else None
        | Some s => Some s
        end in
      (mode', ret')
  end.

(** The [while (fgets(...) != nullptr && (mode == VM_NOTSET || ret ==
    nullptr))] loop over the lines [fgets] returns.  Besides the two
    fields it returns the lines left unread in the file. *)
Fixpoint scan_loop (lines : list string) (mode : vm_mode) (ret : option string)
  : vm_mode * option string * list string :=
  match lines with
  | [] => (mode, ret, [])
  | buf :: rest =>
      if is_notset mode || negb (match ret with None => false | Some _ => true end)
      then let '(mode', ret') := process_line buf mode ret in
           scan_loop rest mode' ret'
      else (mode, ret, rest)
  end.

(** [os_uarch_additional_features]: [cpuinfo] is [None] when
    [/proc/cpuinfo] cannot be opened. *)
Definition os_uarch_additional_features (cpuinfo : option (list string))
  (r : Registry) : option string * Registry :=
  match cpuinfo with
  | None => (None, r)
  | Some lines =>
      let '(mode, ret, _) := scan_loop lines VM_NOTSET None in
      let mode := if is_notset mode then VM_MBARE else mode in
      (ret, enable_feature satp_mode (vm_mode_value mode) r)
  end.

(** JEDEC encoded as [((bank - 1) << 7) | (0x7f & JEDEC)]. *)
Definition RIVOS_MVENDORID : Z := Z.lor (Z.shiftl (14 - 1) 7) (Z.land 127 79).

Definition rivos_bundle : list feature :=
  [ext_I; ext_M; ext_A; ext_F; ext_D; ext_C; ext_Q; ext_H; ext_V;
   ext_Zicbom; ext_Zicboz; ext_Zicbop;
   ext_Zba; ext_Zbb; ext_Zbc; ext_Zbs;
   ext_Zicsr; ext_Zifencei; ext_Zic64b; ext_Zihintpause].

(** [VM_Version::rivos_features] *)
Definition rivos_features (r : Registry) : Registry :=
  let r := fold_left (fun r' f => enable_feature f 0 r') rivos_bundle r in
  let r := enable_feature unaligned_access MISALIGNED_FAST r in
  enable_feature satp_mode (vm_mode_value VM_SV48) r.

(** [VM_Version::vendor_features] *)
Definition vendor_features (r : Registry) : Registry :=
  if negb (enabled r mvendorid) then r
  else match f_value (r mvendorid) with
       | Some v => if Z.eqb v RIVOS_MVENDORID then rivos_features r else r
       | None => r
       end.

(** [tolower] on ASCII. *)
Definition tolower (c : ascii) : ascii :=
  let n := nat_of_ascii c in
  if Nat.leb 65 n && Nat.leb n 90 then ascii_of_nat (n + 32) else c.

(** The token the finalisation loop appends for an extension whose
    [pretty()] is [tmp]: [tmp] itself when [strlen(tmp) == 1], else the
    [prebuf] ["_"] followed by [tolower(tmp[0])], then [&tmp[1]]. *)
Definition feature_token (tmp : string) : string :=
  if Nat.eqb (String.length tmp) 1 then tmp
  else match tmp with
       | String c rest => String "_" (String (tolower c) rest)
       | EmptyString => "_"
       end.

(** The [while (_feature_list[i] != nullptr)] loop of
    [setup_cpu_available_features]: appends the token of every enabled
    extension to [buf] and folds its bit into [_features]
    ([update_flag()] only changes VM flags, which are not modelled). *)
Fixpoint finalize_loop (fl : list feature) (r : Registry) (buf : string)
  (features : Z) : string * Z :=
  match fl with
  | [] => (buf, features)
  | f :: rest =>
      if enabled r f then
        let buf' := if feature_string f then buf ++ feature_token (pretty f) else buf in
        let features' :=
          if Z.eqb (feature_bit f) 0 then features else Z.lor features (feature_bit f) in
        finalize_loop rest r buf' features'
      else finalize_loop rest r buf features
  end.

(** [snprintf(buf, sizeof(buf)/2, "%s,", uarch)]: at most 511 characters. *)
Definition uarch_prefix (uarch : option string) : string :=
  match uarch with
  | Some u => if negb (strcmp_eq u "") then String.substring 0 511 (u ++ ",") else ""
  | None => ""
  end.

(** The detection sources [setup_cpu_available_features] consults. *)
Inductive source := Src_hwprobe | Src_auxv | Src_cpuinfo | Src_vendor.

(** What the environment offers: the hwprobe outcome, [AT_HWCAP] and the
    lines [fgets] returns from [/proc/cpuinfo] ([None]: cannot be opened). *)
Record Env := mkEnv {
  env_hwprobe : option (list (feature * Z));
  env_hwcap : Z;
  env_cpuinfo : option (list string)
}.

(** The state [setup_cpu_available_features] writes: the registry,
    [_features] and [_features_string]. *)
Record VMState := mkVMState {
  vm_registry : Registry;
  vm_features : Z;
  vm_features_string : string
}.

Definition vm_init : VMState := mkVMState registry_init 0 "".

(** Lines 102-104: [if (!RiscvHwprobe::probe_features()) os_aux_features();] *)
Definition detect_isa (env : Env) (r : Registry) : Registry * list source :=
  let '(ok, r1) := probe_features (env_hwprobe env) r in
  if ok then (r1, [Src_hwprobe])
  else (os_aux_features (env_hwcap env) r1, [Src_hwprobe; Src_auxv]).

(** [VM_Version::setup_cpu_available_features], with the list of sources
    it consulted. *)
Definition setup_cpu_available_features (env : Env) (st : VMState)
  : VMState * list source :=
  let '(r1, tr) := detect_isa env (vm_registry st) in
  let '(uarch, r2) := os_uarch_additional_features (env_cpuinfo env) r1 in
  let r3 := vendor_features r2 in
  let buf := uarch_prefix uarch ++ "rv64" in
  let '(s, feats) := finalize_loop feature_list r3 buf (vm_features st) in
  (mkVMState r3 feats s, List.app tr [Src_cpuinfo; Src_vendor]).

(** The registry after steps 1-3 (hwprobe or HWCAP, then cpuinfo), on
    which [vendor_features] runs. *)
Definition registry_before_vendor (env : Env) (r : Registry) : Registry :=
  snd (os_uarch_additional_features (env_cpuinfo env) (fst (detect_isa env r))).

(** The part of [_features_string] after the micro-architecture prefix. *)
Definition canonical_string (r : Registry) : string :=
  fst (finalize_loop feature_list r "rv64" 0).

(** The spec's rendering: "rv64", then in registry order the display token
    of each enabled extension, the bare letter for a single-letter one and
    "_" with the lower-case name for a multi-letter one. *)
Fixpoint lowercase (s : string) : string :=
  match s with
  | EmptyString => EmptyString
  | String c rest => String (tolower c) (lowercase rest)
  end.

Definition spec_token (f : feature) : string :=
  if Nat.eqb (String.length (pretty f)) 1 then pretty f
  else "_" ++ lowercase (pretty f).

Definition spec_canonical (S : feature -> bool) : string :=
  "rv64" ++ fold_right String.append ""
              (map spec_token (filter (fun f => feature_string f && S f) feature_list)).

End VMVersion.

(* ------------------------------------------------------------------ *)
(** ** Auxiliary definitions for the proofs about the C2 code stubs *)

Module StubModel.
Import C2CodeStubs.
Local Open Scope emit_scope.

(** The state after appending [is]. *)
Definition advance (m : Masm) (is : list item) : Masm :=
  mkMasm (m_offset m + code_size is) (m_code m ++ is).

(** [e] always appends exactly [is]. *)
Definition emits (e : Emit) (is : list item) : Prop :=
  forall m, e m = Some (advance m is).

Definition movptr_code : list item :=
  [IInsn "lui"; IInsn "addi"; IInsn "slli"; IInsn "addi"; IInsn "slli"].


Definition j_code (d : Z) : list item :=
  if jal_reachable d then [IInsn "jal"] else movptr_code ++ [IInsn "jalr"].



Definition entry_barrier_prefix (d_cont : Z) : list item :=
  [IBind L_entry] ++ (movptr_code ++ ([IInsn "jalr"] ++ j_code d_cont)).

(** The nops [align(4)] emits at offset [off]. *)
Definition align_pad (cfg : AsmConfig) (off : Z) : list item :=
  if off mod 4 =? 0 then [] else [if UseRVC cfg then ICNop else IInsn "nop"].

Definition guard_code : list item := [IBind L_guard; IReloc R_entry_guard; IWord32 0].

(** Whether code [is] binds label [l]. *)
Definition binds (l : label) (is : list item) : bool :=
  existsb (fun i => match i with IBind l' => label_eqb l l' | _ => false end) is.

(** A configuration with compressed instructions and near branches. *)
Definition rvc_near : AsmConfig := mkAsmConfig true false.
End StubModel.

(* ------------------------------------------------------------------ *)
(** ** Auxiliary definitions for the proofs about the feature detection *)

Module VMModel.
Import VMVersion.
Local Open Scope string_scope.

(** No hwprobe, an empty HWCAP, no [/proc/cpuinfo]. *)
Definition env_none : Env := mkEnv None 0 None.

(** A newline character. *)
Definition nl : string := String "010"%char EmptyString.

(** The state of the cpuinfo loop and one unconditional step of its body. *)
Definition scan_state : Type := (vm_mode * option string)%type.

Definition scan_step (s : scan_state) (buf : string) : scan_state :=
  process_line buf (fst s) (snd s).

(** The loop condition fails: both fields are set. *)
Definition scan_done (s : scan_state) : bool :=
  negb (is_notset (fst s)) && (match snd s with None => false | Some _ => true end).

Definition scan_fields (lines : list string) : scan_state :=
  let '(m, r, _) := scan_loop lines VM_NOTSET None in (m, r).

Definition scan_unread (lines : list string) : list string :=
  let '(_, _, u) := scan_loop lines VM_NOTSET None in u.

(** The text after the first colon of the first line with a colon that
    starts with [key]. *)
Fixpoint first_field (key : string) (lines : list string) : option string :=
  match lines with
  | [] => None
  | buf :: rest =>
      match strchr buf ":" with
      | Some p => if starts_with key buf then Some p else first_field key rest
      | None => first_field key rest
      end
  end.

Definition mode_of_first (lines : list string) : vm_mode :=
  match first_field "mmu" lines with
  | Some p => parse_satp_mode p
  | None => VM_NOTSET
  end.

Definition uarch_of_first (lines : list string) : option string :=
  match first_field "uarch" lines with
  | Some p => Some (put_nul (strcspn_nl p) (drop 2 p))
  | None => None
  end.

Definition both_found (lines : list string) : bool :=
  (match first_field "mmu" lines with Some _ => true | None => false end) &&
  (match first_field "uarch" lines with Some _ => true | None => false end).

(** [mvendorid] is enabled and holds the Rivos vendor ID. *)
Definition is_rivos (r : Registry) : bool :=
  enabled r mvendorid &&
  match f_value (r mvendorid) with Some v => Z.eqb v RIVOS_MVENDORID | None => false end.

(** The hwprobe reports the Rivos vendor ID; /proc/cpuinfo has no line. *)
Definition env_rivos : Env := mkEnv (Some [(mvendorid, RIVOS_MVENDORID)]) 0 (Some []).

(** The tokens the finalisation loop appends, in registry order. *)
Fixpoint tokens (fl : list feature) (r : Registry) : string :=
  match fl with
  | [] => ""
  | f :: rest =>
      (if enabled r f && feature_string f then feature_token (pretty f) else "")
      ++ tokens rest r
  end.
End VMModel.

(* ------------------------------------------------------------------ *)
(** ** Auxiliary definitions for further properties of the detection *)

Module ExtraModel.
Import VMVersion.

(** The [AT_HWCAP] bits some registry entry's [feature_bit()] maps. *)
Definition hwcap_mapped_mask : Z := fold_right Z.lor 0 (map feature_bit feature_list).

(** The most the finalisation loop adds to the features string: the sum
    of the lengths of the tokens of all entries with [feature_string()]. *)
Definition token_budget : nat :=
  fold_right (fun f acc =>
                (if feature_string f then String.length (feature_token (pretty f)) else 0)
                + acc)%nat 0%nat
    feature_list.

(** Whether [strchr(buf, ':')] finds a colon in a line. *)
Definition has_colon (buf : string) : bool :=
  match strchr buf ":" with Some _ => true | None => false end.

End ExtraModel.

(* ------------------------------------------------------------------ *)
(** ** Proofs about the C2 code stubs *)

Module StubProofs.
Import C2CodeStubs StubModel.
Local Open Scope emit_scope.

Lemma code_size_app xs ys : code_size (xs ++ ys) = code_size xs + code_size ys.
Proof. induction xs as [|x xs IH]; simpl; [reflexivity | rewrite IH; lia]. Qed.

Lemma advance_app m xs ys : advance (advance m xs) ys = advance m (xs ++ ys).
Proof.
  unfold advance; simpl. rewrite code_size_app, app_assoc, Z.add_assoc. reflexivity.
Qed.

Lemma advance_nil m : advance m [] = m.
Proof. destruct m; unfold advance; simpl. now rewrite Z.add_0_r, app_nil_r. Qed.

Lemma emits_item i : emits (emit_item i) [i].
Proof. intro m. unfold emit_item, advance, code_size. simpl. now rewrite Z.add_0_r. Qed.

Lemma emits_seq a b xs ys : emits a xs -> emits b ys -> emits (a ;; b) (xs ++ ys).
Proof. intros Ha Hb m. unfold seq. rewrite Ha, Hb. now rewrite advance_app. Qed.

Lemma seq_emits a b xs m : emits a xs -> (a ;; b) m = b (advance m xs).
Proof. intros Ha. unfold seq. now rewrite Ha. Qed.

Lemma movptr_emits t : emits (movptr t) movptr_code.
Proof.
  unfold movptr, movptr_code.
  change [IInsn "lui"; IInsn "addi"; IInsn "slli"; IInsn "addi"; IInsn "slli"]
    with ([IInsn "lui"] ++ ([IInsn "addi"] ++ ([IInsn "slli"] ++
          ([IInsn "addi"] ++ [IInsn "slli"])))).
  repeat apply emits_seq; apply emits_item.
Qed.


Lemma j_emits d : emits (j d) (j_code d).
Proof.
  unfold j, j_code. destruct (jal_reachable d).
  - apply emits_item.
  - apply emits_seq; [apply movptr_emits | apply emits_item].
Qed.



Lemma align_loop_S cfg md n m :
  align_loop cfg md (S n) m =
  if m_offset m mod md =? 0 then Some m else (nop cfg ;; align_loop cfg md n) m.
Proof. reflexivity. Qed.

(** [align(4)] from an even offset (a multiple of 4 without RVC) pads to
    the next multiple of 4 with at most one compressed nop. *)
Lemma align4_spec cfg m :
  Z.even (m_offset m) = true ->
  (UseRVC cfg = false -> m_offset m mod 4 = 0) ->
  align cfg 4 m = Some (advance m (align_pad cfg (m_offset m))) /\
  (m_offset m + code_size (align_pad cfg (m_offset m))) mod 4 = 0 /\
  0 <= code_size (align_pad cfg (m_offset m)) <= 2.
Proof.
  intros Hev Hrvc. rewrite Z.even_spec in Hev. destruct Hev as [k Hk].
  unfold align, align_pad. change (Z.to_nat 4) with 4%nat.
  rewrite align_loop_S.
  destruct (Z.eqb_spec (m_offset m mod 4) 0) as [E|E].
  - rewrite advance_nil. simpl. rewrite Z.add_0_r. repeat split; lia.
  - destruct (UseRVC cfg) eqn:R.
    + unfold seq at 1, nop. rewrite R. rewrite emits_item. rewrite align_loop_S.
      assert (E2 : m_offset (advance m [ICNop]) mod 4 = 0)
        by (unfold advance; simpl; rewrite Hk in *; Z.div_mod_to_equations; lia).
      rewrite E2. simpl. repeat split; [| lia | lia].
      rewrite Hk in *. Z.div_mod_to_equations. lia.
    + exfalso. apply E, Hrvc. reflexivity.
Qed.

Lemma emits_bind l : emits (bind l) [IBind l].
Proof. apply emits_item. Qed.

Lemma emits_insn mn : emits (insn mn) [IInsn mn].
Proof. apply emits_item. Qed.

Lemma guard_emits :
  emits (bind L_guard ;; relocate R_entry_guard ;; emit_int32 0) guard_code.
Proof.
  unfold guard_code.
  change [IBind L_guard; IReloc R_entry_guard; IWord32 0]
    with ([IBind L_guard] ++ ([IReloc R_entry_guard] ++ [IWord32 0])).
  repeat apply emits_seq; apply emits_item.
Qed.

Lemma entry_barrier_prefix_size d :
  (code_size (entry_barrier_prefix d) = 28 \/ code_size (entry_barrier_prefix d) = 48) /\
  (jal_reachable d = true -> code_size (entry_barrier_prefix d) = 28).
Proof.
  unfold entry_barrier_prefix, j_code.
  destruct (jal_reachable d); simpl; split; auto; discriminate.
Qed.

(** The first four steps of [C2EntryBarrierStub::emit] append the prefix. *)
Lemma entry_barrier_emit_prefix cfg routine d_cont m :
  entry_barrier_emit cfg routine d_cont m =
  (align cfg 4 ;; bind L_guard ;; relocate R_entry_guard ;; emit_int32 0)
    (advance m (entry_barrier_prefix d_cont)).
Proof.
  unfold entry_barrier_emit.
  rewrite (seq_emits _ _ _ _ (emits_bind L_entry)).
  rewrite (seq_emits _ _ _ _ (movptr_emits routine)).
  rewrite (seq_emits _ _ _ _ (emits_insn "jalr")).
  rewrite (seq_emits _ _ _ _ (j_emits d_cont)).
  rewrite !advance_app. unfold entry_barrier_prefix. rewrite <- ?app_assoc. reflexivity.
Qed.

(** From a possible start offset the whole stub is emitted: prefix, the
    alignment nops, then the guard label, its relocation and the word. *)
Lemma entry_barrier_emit_spec cfg routine d_cont m :
  Z.even (m_offset m) = true ->
  (UseRVC cfg = false -> m_offset m mod 4 = 0) ->
  let pre := entry_barrier_prefix d_cont in
  let pad := align_pad cfg (m_offset m + code_size pre) in
  entry_barrier_emit cfg routine d_cont m = Some (advance m (pre ++ pad ++ guard_code)) /\
  (m_offset m + code_size pre + code_size pad) mod 4 = 0 /\
  0 <= code_size pad <= 2.
Proof.
  intros Hev Hrvc pre pad.
  rewrite entry_barrier_emit_prefix. fold pre.
  assert (Hev' : Z.even (m_offset (advance m pre)) = true).
  { unfold advance; cbn [m_offset]. rewrite Z.even_add, Hev.
    destruct (proj1 (entry_barrier_prefix_size d_cont)) as [S|S];
      unfold pre; rewrite S; reflexivity. }
  assert (Hrvc' : UseRVC cfg = false -> m_offset (advance m pre) mod 4 = 0).
  { intro R. specialize (Hrvc R). unfold advance; cbn [m_offset].
    destruct (proj1 (entry_barrier_prefix_size d_cont)) as [S|S];
      unfold pre; rewrite S; Z.div_mod_to_equations; lia. }
  destruct (align4_spec cfg _ Hev' Hrvc') as [Ha [Hm Hs]].
  unfold seq at 1. rewrite Ha. rewrite guard_emits. rewrite !advance_app.
  exact (conj eq_refl (conj Hm Hs)).
Qed.

(** [align] only appends nops, also when it is not known to finish. *)
Lemma align_loop_appends cfg md n m m' :
  align_loop cfg md n m = Some m' -> exists pad, m' = advance m pad.
Proof.
  revert m. induction n as [|n IH]; intros m H.
  - simpl in H. destruct (m_offset m mod md =? 0); [|discriminate].
    injection H as <-. exists []. now rewrite advance_nil.
  - rewrite align_loop_S in H. destruct (m_offset m mod md =? 0).
    + injection H as <-. exists []. now rewrite advance_nil.
    + unfold seq, nop in H. rewrite emits_item in H.
      destruct (IH _ H) as [pad ->]. eexists. now rewrite advance_app.
Qed.

Lemma code_size_cons x xs : code_size (x :: xs) = item_size x + code_size xs.
Proof. reflexivity. Qed.

Lemma bound_at_app off xs ys l :
  binds l xs = false ->
  bound_at off (xs ++ ys) l = bound_at (off + code_size xs) ys l.
Proof.
  revert off. induction xs as [|x xs IH]; intros off H.
  - simpl. now rewrite Z.add_0_r.
  - simpl in H. apply orb_false_iff in H as [Hx Hxs].
    rewrite code_size_cons.
    destruct x; cbn [app bound_at item_size] in Hx |- *; try rewrite Hx;
      rewrite IH by exact Hxs; f_equal; lia.
Qed.


Lemma binds_guard_prefix d : binds L_guard (entry_barrier_prefix d) = false.
Proof. unfold entry_barrier_prefix, j_code. now destruct (jal_reachable d). Qed.

Lemma binds_guard_pad cfg off : binds L_guard (align_pad cfg off) = false.
Proof.
  unfold align_pad. destruct (off mod 4 =? 0); [reflexivity |].
  now destruct (UseRVC cfg).
Qed.

(** C1: after [C2EntryBarrierStub::emit], the guard label, where the guard
    word is emitted, sits at an offset that is a multiple of 4, from every
    start offset the code can have (any even offset with compressed
    instructions, any multiple of 4 without them) and for any barrier
    routine address and continuation. *)
Theorem entry_barrier_guard_aligned cfg routine d_cont m :
  Z.even (m_offset m) = true ->
  (UseRVC cfg = false -> m_offset m mod 4 = 0) ->
  exists m' stub g,
    entry_barrier_emit cfg routine d_cont m = Some m' /\
    m_code m' = m_code m ++ stub /\
    bound_at (m_offset m) stub L_guard = Some g /\
    g mod 4 = 0.
Proof.
  intros Hev Hrvc.
  pose proof (entry_barrier_emit_spec cfg routine d_cont m Hev Hrvc) as Hspec.
  cbv zeta in Hspec. destruct Hspec as [He [Hm _]].
  eexists; eexists; eexists. split; [exact He |]. split; [reflexivity |].
  split; [| exact Hm].
  rewrite bound_at_app by apply binds_guard_prefix.
  rewrite bound_at_app by apply binds_guard_pad.
  reflexivity.
Qed.



(** C10: every emission of [C2EntryBarrierStub::emit] ends with the guard
    label, the entry-guard relocation and, right after it, the 32-bit word
    0. *)
Theorem entry_barrier_guard_word_zero cfg routine d_cont m m' :
  entry_barrier_emit cfg routine d_cont m = Some m' ->
  exists pre,
    m_code m' = m_code m ++ pre ++ [IBind L_guard; IReloc R_entry_guard; IWord32 0].
Proof.
  rewrite entry_barrier_emit_prefix. unfold seq at 1.
  destruct (align cfg 4 (advance m (entry_barrier_prefix d_cont))) as [m1|] eqn:A;
    [| discriminate].
  intro H. rewrite guard_emits in H. injection H as <-.
  apply align_loop_appends in A as [pad ->].
  exists (entry_barrier_prefix d_cont ++ pad).
  unfold advance, guard_code; cbn [m_code]. now rewrite <- !app_assoc.
Qed.

Lemma entry_barrier_guard_aligned_witness :
  exists m' stub g,
    entry_barrier_emit rvc_near 4096 (-64) (mkMasm 2 []) = Some m' /\
    m_code m' = [] ++ stub /\ bound_at 2 stub L_guard = Some g /\ g mod 4 = 0.
Proof.
  apply (entry_barrier_guard_aligned rvc_near 4096 (-64) (mkMasm 2 [])).
  - reflexivity.
  - intro H; discriminate H.
Defined.


Lemma entry_barrier_guard_word_zero_witness :
  exists m', entry_barrier_emit rvc_near 4096 (-64) (mkMasm 2 []) = Some m' /\
  exists pre, m_code m' = [] ++ pre ++ [IBind L_guard; IReloc R_entry_guard; IWord32 0].
Proof.
  eexists. split; [reflexivity |].
  apply (entry_barrier_guard_word_zero rvc_near 4096 (-64) (mkMasm 2 [])).
  reflexivity.
Defined.

End StubProofs.

(* ------------------------------------------------------------------ *)
(** ** Proofs about the feature detection *)

Module VMProofs.
Import VMVersion VMModel.
Local Open Scope string_scope.

Lemma feature_eqb_true a b : feature_eqb a b = true <-> a = b.
Proof. unfold feature_eqb. destruct (feature_eq_dec a b); split; congruence. Qed.

Lemma string_app_assoc (a b c : string) : (a ++ b) ++ c = a ++ (b ++ c).
Proof. induction a; simpl; congruence. Qed.

Lemma string_app_nil_r (a : string) : a ++ "" = a.
Proof. induction a; simpl; congruence. Qed.

Lemma finalize_loop_string fl r buf x :
  fst (finalize_loop fl r buf x) = buf ++ tokens fl r.
Proof.
  revert buf x. induction fl as [|f fl IH]; intros buf x; cbn [finalize_loop tokens].
  - simpl. now rewrite string_app_nil_r.
  - destruct (enabled r f); cbn [andb].
    + rewrite IH. destruct (feature_string f).
      * now rewrite string_app_assoc.
      * reflexivity.
    + apply IH.
Qed.

Lemma feature_token_spec f :
  feature_string f = true -> feature_token (pretty f) = spec_token f.
Proof. destruct f; reflexivity || discriminate. Qed.

Lemma tokens_spec fl r :
  tokens fl r =
  fold_right String.append ""
    (map spec_token (filter (fun f => feature_string f && enabled r f) fl)).
Proof.
  induction fl as [|f fl IH]; [reflexivity |]. cbn [tokens filter].
  destruct (enabled r f) eqn:E, (feature_string f) eqn:F; cbn [andb];
    rewrite IH; try reflexivity.
  cbn [map fold_right]. now rewrite feature_token_spec.
Qed.

Lemma canonical_string_spec r : canonical_string r = spec_canonical (enabled r).
Proof.
  unfold canonical_string, spec_canonical. rewrite finalize_loop_string.
  now rewrite tokens_spec.
Qed.

Lemma os_aux_features_fold fl auxv r g :
  enabled (fold_left (fun r' f => if Z.eqb (Z.land (feature_bit f) auxv) 0 then r'
                                  else enable_feature f 0 r') fl r) g =
  enabled r g ||
  existsb (fun f => feature_eqb f g && negb (Z.eqb (Z.land (feature_bit f) auxv) 0)) fl.
Proof.
  revert r. induction fl as [|f fl IH]; intro r; cbn [fold_left existsb].
  - now rewrite orb_false_r.
  - rewrite IH.
    destruct (Z.eqb (Z.land (feature_bit f) auxv) 0) eqn:C; cbn [negb].
    + now rewrite andb_false_r.
    + unfold enabled at 1, enable_feature. rewrite andb_true_r.
      destruct (feature_eqb f g); cbn [f_enabled orb];
        [now rewrite orb_true_r | reflexivity].
Qed.

Lemma existsb_feature_list (P : feature -> bool) g :
  existsb (fun f => feature_eqb f g && P f) feature_list = P g.
Proof. destruct g; cbn; now rewrite ?orb_false_r. Qed.

(** [os_aux_features] from the initial registry enables exactly the
    entries whose bit is set in [AT_HWCAP]. *)
Lemma os_aux_features_init auxv g :
  enabled (os_aux_features auxv registry_init) g =
  negb (Z.eqb (Z.land (feature_bit g) auxv) 0).
Proof.
  unfold os_aux_features. rewrite os_aux_features_fold.
  rewrite existsb_feature_list. reflexivity.
Qed.

Lemma setup_unfold env st :
  setup_cpu_available_features env st =
  (let r1 := fst (detect_isa env (vm_registry st)) in
   let p := os_uarch_additional_features (env_cpuinfo env) r1 in
   let r3 := vendor_features (snd p) in
   let fin := finalize_loop feature_list r3 (uarch_prefix (fst p) ++ "rv64") (vm_features st) in
   (mkVMState r3 (snd fin) (fst fin), List.app (snd (detect_isa env (vm_registry st)))
                                               [Src_cpuinfo; Src_vendor])).
Proof.
  unfold setup_cpu_available_features.
  destruct (detect_isa env (vm_registry st)) as [r1 tr]. cbn [fst snd].
  destruct (os_uarch_additional_features (env_cpuinfo env) r1) as [u r2].
  cbn [fst snd]. destruct (finalize_loop _ _ _ _). reflexivity.
Qed.

(** C3 (as stated, refuted): with every source unavailable the translation
    mode is not set to bare: [os_uarch_additional_features] returns before
    its [VM_MBARE] default when [/proc/cpuinfo] cannot be opened. *)
Lemma no_sources_translation_mode_not_bare :
  ~ (let st := fst (setup_cpu_available_features env_none vm_init) in
     vm_features_string st = "rv64" /\
     (forall f, feature_string f = true -> enabled (vm_registry st) f = false) /\
     vm_registry st satp_mode = mkFstate true (Some (vm_mode_value VM_MBARE))).
Proof. cbv zeta. intros [_ [_ H]]. vm_compute in H. discriminate H. Qed.

(** C3 (amended): with the hwprobe failing, an empty [AT_HWCAP], no
    [/proc/cpuinfo] and hence no vendor ID, the detection pass yields the
    features string "rv64", no feature bits, and leaves every registry
    entry disabled and without a value, the translation mode included
    ([satp_mode] is never assigned). *)
Theorem no_sources_minimal_snapshot :
  let st := fst (setup_cpu_available_features env_none vm_init) in
  vm_features_string st = "rv64" /\ vm_features st = 0%Z /\
  (forall f, vm_registry st f = mkFstate false None).
Proof.
  cbv zeta. split; [reflexivity | split; [reflexivity |]].
  intro f; destruct f; reflexivity.
Qed.

(** C5: the features string after the micro-architecture prefix is "rv64"
    followed, in registry order, by the display token of each enabled
    extension (bare letter, or "_" and the lower-case name); it depends
    only on the set of enabled entries; from the bitmask source it lists
    exactly the extensions whose HWCAP bit is set; and [_features_string]
    is the prefix followed by it. *)
Theorem canonical_string_from_enabled_set :
  (forall r, canonical_string r = spec_canonical (enabled r)) /\
  (forall r1 r2, (forall f, enabled r1 f = enabled r2 f) ->
                 canonical_string r1 = canonical_string r2) /\
  (forall h, canonical_string (os_aux_features h registry_init) =
             spec_canonical (fun f => negb (Z.eqb (Z.land (feature_bit f) h) 0))) /\
  (forall env st,
     let st' := fst (setup_cpu_available_features env st) in
     vm_features_string st' =
     uarch_prefix (fst (os_uarch_additional_features (env_cpuinfo env)
                          (fst (detect_isa env (vm_registry st)))))
     ++ canonical_string (vm_registry st')).
Proof.
  split; [exact canonical_string_spec |].
  split; [| split].
  - intros r1 r2 H. rewrite !canonical_string_spec. unfold spec_canonical.
    rewrite (filter_ext (fun f => feature_string f && enabled r1 f)
                        (fun f => feature_string f && enabled r2 f)); [reflexivity |].
    intro f. now rewrite H.
  - intro h. rewrite canonical_string_spec. unfold spec_canonical.
    rewrite (filter_ext (fun f => feature_string f && enabled (os_aux_features h registry_init) f)
                        (fun f => feature_string f && negb (Z.eqb (Z.land (feature_bit f) h) 0)));
      [reflexivity |].
    intro f. now rewrite os_aux_features_init.
  - intros env st. cbv zeta. rewrite setup_unfold. cbv zeta. cbn [fst vm_features_string vm_registry].
    rewrite finalize_loop_string. unfold canonical_string. rewrite finalize_loop_string.
    apply string_app_assoc.
Qed.

(** C8: the HWCAP bitmask is read exactly when the hwprobe fails; when the
    hwprobe succeeds the registry is what it populated, whatever HWCAP
    holds; when HWCAP is read, exactly the entries whose fixed bit is set
    in it become enabled, and entries without a bit stay disabled. *)
Theorem hwcap_fallback_iff_probe_fails :
  (forall env st,
     In Src_auxv (snd (setup_cpu_available_features env st)) <-> env_hwprobe env = None) /\
  (forall env kvs r,
     env_hwprobe env = Some kvs ->
     fst (detect_isa env r) = snd (probe_features (Some kvs) r)) /\
  (forall env, env_hwprobe env = None ->
     forall f,
       enabled (fst (detect_isa env registry_init)) f =
       negb (Z.eqb (Z.land (feature_bit f) (env_hwcap env)) 0) /\
       (feature_bit f = 0%Z -> enabled (fst (detect_isa env registry_init)) f = false)).
Proof.
  split; [| split].
  - intros env st. rewrite setup_unfold. cbv zeta. cbn [snd].
    unfold detect_isa, probe_features. destruct (env_hwprobe env); cbn.
    + split; [intros [H | [H | [H | []]]]; discriminate H | discriminate].
    + split; [reflexivity | intros _; right; left; reflexivity].
  - intros env kvs r H. unfold detect_isa, probe_features. now rewrite H.
  - intros env H f. unfold detect_isa, probe_features. rewrite H. cbn [fst].
    rewrite os_aux_features_init. split; [reflexivity |].
    intro B. now rewrite B, Z.land_0_l.
Qed.

Lemma hwcap_fallback_iff_probe_fails_witness :
  enabled (fst (detect_isa (mkEnv None 4352 None) registry_init)) ext_M =
  negb (Z.eqb (Z.land (feature_bit ext_M) 4352) 0) /\
  (feature_bit ext_M = 0%Z ->
   enabled (fst (detect_isa (mkEnv None 4352 None) registry_init)) ext_M = false).
Proof.
  exact (proj2 (proj2 hwcap_fallback_iff_probe_fails) (mkEnv None 4352 None)
           eq_refl ext_M).
Defined.

Lemma canonical_string_from_enabled_set_witness :
  canonical_string
    (enable_feature ext_Zba 0 (os_aux_features 4356 registry_init)) = "rv64imc_zba" /\
  canonical_string
    (enable_feature ext_Zba 0 (os_aux_features 4356 registry_init)) =
  canonical_string
    (enable_feature ext_C 7 (enable_feature ext_Zba 3
       (enable_feature ext_M 7 (enable_feature ext_I 7 registry_init)))).
Proof.
  split; [vm_compute; reflexivity |].
  apply (proj1 (proj2 canonical_string_from_enabled_set)).
  intro f; destruct f; reflexivity.
Defined.

Lemma parse_not_notset p : is_notset (parse_satp_mode p) = false.
Proof.
  unfold parse_satp_mode.
  destruct (strcmp_eq p "sv39"), (strcmp_eq p "sv48"), (strcmp_eq p "sv57"),
    (strcmp_eq p "sv64"); reflexivity.
Qed.

Lemma scan_step_done s buf : scan_done s = true -> scan_step s buf = s.
Proof.
  destruct s as [m r]. unfold scan_done, scan_step, process_line. cbn [fst snd].
  intro H. destruct m, r; cbn in H; try discriminate H;
    destruct (strchr buf ":"); reflexivity.
Qed.

Lemma fold_scan_done l s : scan_done s = true -> fold_left scan_step l s = s.
Proof.
  revert s. induction l as [|x l IH]; intros s H; [reflexivity |].
  cbn [fold_left]. rewrite scan_step_done by exact H. now apply IH.
Qed.

Lemma scan_cond m r :
  (is_notset m || negb (match r with None => false | Some _ => true end)) =
  negb (scan_done (m, r)).
Proof. unfold scan_done; cbn [fst snd]. now destruct (is_notset m), r. Qed.

(** The two fields the loop returns are those of running its body over
    every line: once both are set, the body leaves them unchanged. *)
Lemma scan_loop_fields lines m r :
  (let '(m', r', _) := scan_loop lines m r in (m', r')) =
  fold_left scan_step lines (m, r).
Proof.
  revert m r. induction lines as [|x xs IH]; intros m r; [reflexivity |].
  cbn [scan_loop fold_left]. rewrite scan_cond.
  destruct (scan_done (m, r)) eqn:D; cbn [negb].
  - rewrite scan_step_done by exact D. now rewrite fold_scan_done.
  - change (scan_step (m, r) x) with (process_line x m r).
    destruct (process_line x m r) as [m1 r1]. apply IH.
Qed.

(** Running the body over all lines keeps the first [mmu] and the first
    [uarch] line's values. *)
Lemma fold_scan_first lines m r :
  fold_left scan_step lines (m, r) =
  ((if is_notset m then mode_of_first lines else m),
   match r with None => uarch_of_first lines | Some x => Some x end).
Proof.
  revert m r. induction lines as [|x xs IH]; intros m r.
  - destruct m, r; reflexivity.
  - cbn [fold_left]. change (scan_step (m, r) x) with (process_line x m r).
    unfold process_line.
    unfold mode_of_first, uarch_of_first; cbn [first_field].
    destruct (strchr x ":") as [p|] eqn:Hc.
    + rewrite IH. unfold mode_of_first, uarch_of_first.
      destruct m, (starts_with "mmu" x), r, (starts_with "uarch" x);
        cbn -[parse_satp_mode first_field]; rewrite ?parse_not_notset; reflexivity.
    + rewrite IH. reflexivity.
Qed.

Lemma scan_done_fold lines :
  scan_done (fold_left scan_step lines (VM_NOTSET, None)) = both_found lines.
Proof.
  rewrite fold_scan_first. unfold scan_done, both_found, mode_of_first, uarch_of_first.
  cbn [fst snd is_notset].
  destruct (first_field "mmu" lines), (first_field "uarch" lines);
    cbn -[parse_satp_mode]; rewrite ?parse_not_notset; reflexivity.
Qed.

Lemma scan_loop_app pre rest m r :
  scan_done (fold_left scan_step pre (m, r)) = false ->
  scan_loop (pre ++ rest) m r =
  let '(m', r') := fold_left scan_step pre (m, r) in scan_loop rest m' r'.
Proof.
  revert m r. induction pre as [|x pre IH]; intros m r H; [reflexivity |].
  cbn [fold_left] in H. cbn [app scan_loop]. rewrite scan_cond.
  destruct (scan_done (m, r)) eqn:D.
  - rewrite scan_step_done in H by exact D. rewrite fold_scan_done in H by exact D.
    congruence.
  - cbn [negb fold_left].
    change (scan_step (m, r) x) with (process_line x m r) in *.
    destruct (process_line x m r) as [m1 r1]. now apply IH.
Qed.

Lemma strchr_some s c p : strchr s c = Some p -> exists rest, p = String c rest.
Proof.
  induction s as [|c' s IH]; cbn; [discriminate |].
  destruct (Ascii.eqb c c') eqn:E.
  - intro H. injection H as <-. apply Ascii.eqb_eq in E. subst. eauto.
  - exact IH.
Qed.

Lemma first_field_colon key lines p :
  first_field key lines = Some p -> exists rest, p = String ":" rest.
Proof.
  induction lines as [|x xs IH]; cbn; [discriminate |].
  destruct (strchr x ":") as [q|] eqn:Hc; [| exact IH].
  destruct (starts_with key x); [| exact IH].
  intro H. injection H as <-. exact (strchr_some _ _ _ Hc).
Qed.

Lemma first_field_app key xs ys p :
  first_field key xs = Some p -> first_field key (xs ++ ys) = Some p.
Proof.
  induction xs as [|x xs IH]; cbn; [discriminate |].
  destruct (strchr x ":"); [destruct (starts_with key x) |]; auto.
Qed.

Lemma os_uarch_additional_features_some lines r :
  os_uarch_additional_features (Some lines) r =
  (uarch_of_first lines,
   enable_feature satp_mode
     (vm_mode_value (if is_notset (mode_of_first lines) then VM_MBARE
                     else mode_of_first lines)) r).
Proof.
  unfold os_uarch_additional_features.
  pose proof (scan_loop_fields lines VM_NOTSET None) as H.
  rewrite fold_scan_first in H. cbn [is_notset] in H.
  destruct (scan_loop lines VM_NOTSET None) as [[m u] rest].
  injection H as -> ->. reflexivity.
Qed.

Lemma mode_of_first_bare lines :
  mode_of_first lines = VM_NOTSET \/ mode_of_first lines = VM_MBARE.
Proof.
  unfold mode_of_first. destruct (first_field "mmu" lines) as [p|] eqn:F; [| now left].
  right. destruct (first_field_colon _ _ _ F) as [rest ->]. reflexivity.
Qed.

Lemma strcspn_nl_app_nl v : strcspn_nl v = String.length v -> strcspn_nl (v ++ nl) = String.length v.
Proof.
  induction v as [|c v IH]; cbn; [reflexivity |].
  destruct (Ascii.eqb c "010"%char); [discriminate |].
  intro H. injection H as H. now rewrite IH.
Qed.

Lemma length_app_nl v : String.length (v ++ nl) = S (String.length v).
Proof. induction v as [|c v IH]; cbn; [reflexivity | now rewrite IH]. Qed.

(** The [uarch] value is copied with its newline: [strcspn] counts from
    the colon, two characters before the copy. *)
Lemma uarch_line_keeps_newline v r :
  strcspn_nl v = String.length v ->
  fst (os_uarch_additional_features (Some ["uarch : " ++ v ++ nl]) r) = Some (v ++ nl).
Proof.
  intro Hv. rewrite os_uarch_additional_features_some. cbn [fst].
  unfold uarch_of_first. cbn -[put_nul strcspn_nl drop].
  change (drop 2 (String ":" (String " " (v ++ nl)))) with (v ++ nl).
  cbn [strcspn_nl]. cbn -[put_nul]. rewrite (strcspn_nl_app_nl v Hv).
  unfold put_nul. rewrite length_app_nl.
  destruct (Nat.leb_spec (S (S (String.length v))) (S (String.length v))); [lia |].
  reflexivity.
Qed.

Lemma scan_fields_first lines :
  scan_fields lines = (mode_of_first lines, uarch_of_first lines).
Proof.
  unfold scan_fields. rewrite scan_loop_fields, fold_scan_first. reflexivity.
Qed.

Lemma scan_after_last pre l post :
  both_found pre = false -> both_found (pre ++ [l]) = true ->
  scan_loop (pre ++ l :: post) VM_NOTSET None =
  (fst (fold_left scan_step (pre ++ [l]) (VM_NOTSET, None)),
   snd (fold_left scan_step (pre ++ [l]) (VM_NOTSET, None)), tl post).
Proof.
  intros H1 H2. rewrite <- scan_done_fold in H1, H2.
  rewrite fold_left_app in H2 |- *. cbn [fold_left] in H2 |- *.
  rewrite (scan_loop_app pre (l :: post)) by exact H1.
  destruct (fold_left scan_step pre (VM_NOTSET, None)) as [m r].
  cbn [scan_loop]. rewrite scan_cond, H1. cbn [negb].
  change (process_line l m r) with (scan_step (m, r) l).
  destruct (scan_step (m, r) l) as [m1 r1].
  destruct post as [|x post]; [reflexivity |].
  cbn [scan_loop tl]. rewrite scan_cond, H2. reflexivity.
Qed.

Lemma feature_eqb_sym a b : feature_eqb a b = feature_eqb b a.
Proof. destruct a, b; reflexivity. Qed.

Lemma fold_enable_at fl v r g :
  fold_left (fun r' f => enable_feature f v r') fl r g =
  if existsb (feature_eqb g) fl then mkFstate true (Some v) else r g.
Proof.
  revert r. induction fl as [|a fl IH]; intro r; [reflexivity |].
  cbn [fold_left existsb]. rewrite IH.
  destruct (existsb (feature_eqb g) fl); [now rewrite orb_true_r |].
  rewrite orb_false_r. unfold enable_feature. now rewrite feature_eqb_sym.
Qed.

(** What [vendor_features] does to one entry. *)
Lemma vendor_features_at r f :
  vendor_features r f =
  if is_rivos r then
    (if feature_eqb satp_mode f then mkFstate true (Some (vm_mode_value VM_SV48))
     else if feature_eqb unaligned_access f then mkFstate true (Some MISALIGNED_FAST)
     else if existsb (feature_eqb f) rivos_bundle then mkFstate true (Some 0)
     else r f)
  else r f.
Proof.
  unfold vendor_features, is_rivos.
  destruct (enabled r mvendorid); cbn [negb andb]; [| reflexivity].
  destruct (f_value (r mvendorid)) as [v|]; [| reflexivity].
  destruct (Z.eqb v RIVOS_MVENDORID); [| reflexivity].
  unfold rivos_features, enable_feature at 1 2. now rewrite fold_enable_at.
Qed.

(** C4 (code bug): whatever /proc/cpuinfo holds, the translation mode
    [os_uarch_additional_features] records is bare: [parse_satp_mode] is
    given the text from the colon on (": sv48" and the newline), which
    never equals "sv39", "sv48", "sv57" or "sv64". So "mmu : sv48" does
    not give [VM_SV48]. *)
Theorem cpuinfo_mmu_mode_always_bare :
  (forall lines r,
     f_value (snd (os_uarch_additional_features (Some lines) r) satp_mode) =
     Some (vm_mode_value VM_MBARE)) /\
  f_value (snd (os_uarch_additional_features
                  (Some ["mmu : sv48" ++ nl; "uarch : sifive-u74" ++ nl])
                  registry_init) satp_mode) <> Some (vm_mode_value VM_SV48).
Proof.
  assert (G : forall lines r,
     f_value (snd (os_uarch_additional_features (Some lines) r) satp_mode) =
     Some (vm_mode_value VM_MBARE)).
  { intros lines r. rewrite os_uarch_additional_features_some. cbn [snd].
    unfold enable_feature. rewrite (proj2 (feature_eqb_true _ _) eq_refl).
    cbn [f_value]. destruct (mode_of_first_bare lines) as [E | E]; now rewrite E. }
  split; [exact G |]. rewrite G. discriminate.
Qed.

(** C7 (as stated, refuted): the loop does read one more line after the
    line that completes both fields: [fgets] runs before the loop
    condition is tested, so that line is consumed without being used. *)
Lemma cpuinfo_scan_fetches_one_more_line :
  ~ (forall pre l post,
       both_found pre = false -> both_found (pre ++ [l]) = true ->
       scan_unread (pre ++ l :: post) = post).
Proof.
  intro H.
  specialize (H ["mmu : sv48" ++ nl] ("uarch : sifive-u74" ++ nl) ["x" ++ nl]
                eq_refl eq_refl).
  vm_compute in H. discriminate H.
Qed.

(** C7 (amended): the loop yields the value of the first [mmu] line and
    of the first [uarch] line, in whatever order they come and with
    [VM_NOTSET] / no name for an absent one; once the line [l] completes
    both fields, exactly one further line is fetched (and discarded), no
    later line is looked at, and the result is the one of the lines up to
    [l]. *)
Theorem cpuinfo_scan_first_fields lines pre l post :
  scan_fields lines = (mode_of_first lines, uarch_of_first lines) /\
  (both_found pre = false -> both_found (pre ++ [l]) = true ->
   scan_unread (pre ++ l :: post) = tl post /\
   scan_fields (pre ++ l :: post) = scan_fields (pre ++ [l])).
Proof.
  split; [apply scan_fields_first |].
  intros H1 H2. unfold scan_unread, scan_fields.
  rewrite (scan_after_last pre l post H1 H2).
  split; [reflexivity |].
  rewrite <- (scan_loop_fields (pre ++ [l]) VM_NOTSET None).
  destruct (scan_loop (pre ++ [l]) VM_NOTSET None) as [[m r] u]. reflexivity.
Qed.

Lemma cpuinfo_scan_first_fields_witness :
  both_found ["mmu : sv48" ++ nl] = false /\
  both_found ["mmu : sv48" ++ nl; "uarch : sifive-u74" ++ nl] = true /\
  scan_unread ["mmu : sv48" ++ nl; "uarch : sifive-u74" ++ nl; "x" ++ nl; "y" ++ nl] =
  ["y" ++ nl].
Proof.
  split; [reflexivity | split; [reflexivity |]].
  exact (proj1 (proj2 (cpuinfo_scan_first_fields [] ["mmu : sv48" ++ nl]
                         ("uarch : sifive-u74" ++ nl) ["x" ++ nl; "y" ++ nl])
                  eq_refl eq_refl)).
Defined.

(** C9 (code bug): the line "uarch : sifive-u74" gives the name
    "sifive-u74" followed by its newline, not "sifive-u74": the index
    [strcspn(p, "\n")] is counted from the colon, two characters before
    the copy, so the terminator lands past the copy. The features string
    then starts with "sifive-u74", the newline and ",". *)
Theorem cpuinfo_uarch_keeps_newline :
  fst (os_uarch_additional_features (Some ["uarch : sifive-u74" ++ nl]) registry_init) =
  Some ("sifive-u74" ++ nl) /\
  vm_features_string
    (fst (setup_cpu_available_features (mkEnv None 0 (Some ["uarch : sifive-u74" ++ nl]))
                                       vm_init)) =
  "sifive-u74" ++ nl ++ ",rv64".
Proof.
  split.
  - exact (uarch_line_keeps_newline "sifive-u74" registry_init eq_refl).
  - vm_compute. reflexivity.
Qed.

(** C6 (as stated, refuted): the overlay does more than enable disabled
    entries and fill unset values: on a Rivos vendor ID it overwrites the
    translation mode that /proc/cpuinfo already set (bare, 0) with sv48. *)
Lemma vendor_overlay_rewrites_set_tunable :
  ~ (forall env f,
       let r := registry_before_vendor env registry_init in
       let r' := vendor_features r in
       (enabled r f = true -> enabled r' f = true) /\
       (r' f = r f \/ f_enabled (r f) = false \/ f_value (r f) = None)).
Proof.
  intro H. destruct (H env_rivos satp_mode) as [_ [E | [E | E]]];
    vm_compute in E; discriminate E.
Qed.

(** C6 (amended): the overlay never disables an entry; without the Rivos
    vendor ID it changes nothing; with it, it sets [satp_mode] to sv48 and
    [unaligned_access] to [MISALIGNED_FAST] and enables the Rivos
    extension bundle with value 0, whatever these entries held before, and
    leaves every other entry as it was. *)
Theorem vendor_overlay_effect r f :
  (enabled r f = true -> enabled (vendor_features r) f = true) /\
  vendor_features r f =
  if is_rivos r then
    (if feature_eqb satp_mode f then mkFstate true (Some (vm_mode_value VM_SV48))
     else if feature_eqb unaligned_access f then mkFstate true (Some MISALIGNED_FAST)
     else if existsb (feature_eqb f) rivos_bundle then mkFstate true (Some 0)
     else r f)
  else r f.
Proof.
  split; [| apply vendor_features_at].
  intro H. unfold enabled. rewrite vendor_features_at.
  destruct (is_rivos r); [| exact H].
  destruct (feature_eqb satp_mode f); [reflexivity |].
  destruct (feature_eqb unaligned_access f); [reflexivity |].
  destruct (existsb (feature_eqb f) rivos_bundle); [reflexivity | exact H].
Qed.

Lemma vendor_overlay_effect_witness :
  let r := registry_before_vendor env_rivos registry_init in
  enabled r mvendorid = true /\ enabled (vendor_features r) mvendorid = true.
Proof.
  cbv zeta. split; [vm_compute; reflexivity |].
  apply (proj1 (vendor_overlay_effect _ mvendorid)). vm_compute. reflexivity.
Defined.

End VMProofs.

(* ------------------------------------------------------------------ *)
(** ** Further properties of the feature detection *)

Module ExtraProofs.
Import VMVersion VMModel ExtraModel VMProofs.
Local Open Scope string_scope.

Lemma os_aux_fold_at fl h r g :
  fold_left (fun r' f => if Z.eqb (Z.land (feature_bit f) h) 0 then r'
                         else enable_feature f 0 r') fl r g =
  if existsb (fun f => feature_eqb f g && negb (Z.eqb (Z.land (feature_bit f) h) 0)) fl
  then mkFstate true (Some 0) else r g.
Proof.
  revert r. induction fl as [|f fl IH]; intro r; [reflexivity |].
  cbn [fold_left existsb]. rewrite IH.
  destruct (existsb _ fl); [now rewrite orb_true_r |]. rewrite orb_false_r.
  destruct (Z.eqb (Z.land (feature_bit f) h) 0); cbn [negb];
    [now rewrite andb_false_r | rewrite andb_true_r; reflexivity].
Qed.

Lemma nonzero_lor a b : Z.eqb (Z.lor a b) 0 = Z.eqb a 0 && Z.eqb b 0.
Proof.
  destruct (Z.eqb_spec (Z.lor a b) 0) as [E | E].
  - apply Z.lor_eq_0_iff in E. destruct E as [-> ->]. reflexivity.
  - destruct (Z.eqb_spec a 0), (Z.eqb_spec b 0); subst; try reflexivity.
    exfalso. apply E. reflexivity.
Qed.

Lemma feature_bit_mapped f : Z.land (feature_bit f) hwcap_mapped_mask = feature_bit f.
Proof. destruct f; vm_compute; reflexivity. Qed.

(** X1: [os_aux_features] sets an entry to enabled with value 0 when the
    entry's bit is set in [AT_HWCAP] and leaves it as it was otherwise. *)
Theorem os_aux_features_at h r f :
  os_aux_features h r f =
  if Z.eqb (Z.land (feature_bit f) h) 0 then r f else mkFstate true (Some 0).
Proof.
  unfold os_aux_features. rewrite os_aux_fold_at.
  rewrite (existsb_feature_list (fun g => negb (Z.eqb (Z.land (feature_bit g) h) 0)) f).
  now destruct (Z.eqb (Z.land (feature_bit f) h) 0).
Qed.

(** X2: two [os_aux_features] passes act as one pass over the union of the
    two bitmasks; in particular a second pass with the same bitmask
    changes nothing. *)
Theorem os_aux_features_compose h1 h2 r f :
  os_aux_features h1 (os_aux_features h2 r) f = os_aux_features (Z.lor h1 h2) r f.
Proof.
  rewrite !os_aux_features_at. rewrite Z.land_lor_distr_r, nonzero_lor.
  now destruct (Z.eqb (Z.land (feature_bit f) h1) 0),
               (Z.eqb (Z.land (feature_bit f) h2) 0).
Qed.

(** X3: [AT_HWCAP] bits that no registry entry's [feature_bit()] maps
    (all but the nine single-letter extension bits) are ignored. *)
Theorem os_aux_features_ignores_unmapped h r f :
  os_aux_features h r f = os_aux_features (Z.land h hwcap_mapped_mask) r f.
Proof.
  rewrite !os_aux_features_at.
  rewrite (Z.land_comm h hwcap_mapped_mask), Z.land_assoc, feature_bit_mapped.
  reflexivity.
Qed.

Lemma enabled_enable_feature f v r g :
  enabled (enable_feature f v r) g = feature_eqb f g || enabled r g.
Proof. unfold enabled, enable_feature. now destruct (feature_eqb f g). Qed.

Lemma probe_features_mono p r g :
  enabled r g = true -> enabled (snd (probe_features p r)) g = true.
Proof.
  destruct p as [kvs|]; cbn [probe_features snd]; [| trivial].
  revert r. induction kvs as [|kv kvs IH]; intros r H; [exact H |].
  cbn [fold_left]. apply IH. rewrite enabled_enable_feature, H. apply orb_true_r.
Qed.

Lemma os_aux_features_mono h r g :
  enabled r g = true -> enabled (os_aux_features h r) g = true.
Proof.
  intro H. unfold enabled. rewrite os_aux_features_at.
  now destruct (Z.eqb (Z.land (feature_bit g) h) 0).
Qed.

Lemma os_uarch_mono c r g :
  enabled r g = true -> enabled (snd (os_uarch_additional_features c r)) g = true.
Proof.
  intro H. destruct c as [lines|]; [| exact H].
  rewrite os_uarch_additional_features_some. cbn [snd].
  rewrite enabled_enable_feature, H. apply orb_true_r.
Qed.

Lemma vendor_features_mono r g :
  enabled r g = true -> enabled (vendor_features r) g = true.
Proof.
  intro H. unfold enabled in *. rewrite vendor_features_at.
  destruct (is_rivos r); [| exact H].
  destruct (feature_eqb satp_mode g); [reflexivity |].
  destruct (feature_eqb unaligned_access g); [reflexivity |].
  destruct (existsb (feature_eqb g) rivos_bundle); [reflexivity | exact H].
Qed.

(** X4: [setup_cpu_available_features] never disables an entry: whatever
    the hwprobe, [AT_HWCAP], /proc/cpuinfo and the vendor ID, every entry
    enabled before the pass is enabled after it. *)
Theorem setup_never_disables env st f :
  enabled (vm_registry st) f = true ->
  enabled (vm_registry (fst (setup_cpu_available_features env st))) f = true.
Proof.
  intro H. rewrite setup_unfold. cbv zeta. cbn [fst vm_registry].
  apply vendor_features_mono, os_uarch_mono.
  unfold detect_isa. destruct (probe_features (env_hwprobe env) (vm_registry st)) as [ok r1] eqn:P.
  pose proof (probe_features_mono (env_hwprobe env) _ _ H) as Hp. rewrite P in Hp.
  cbn [snd] in Hp. destruct ok; cbn [fst]; [exact Hp | now apply os_aux_features_mono].
Qed.

Lemma setup_never_disables_witness :
  let st := mkVMState (enable_feature ext_V 0 registry_init) 0 "" in
  enabled (vm_registry st) ext_V = true /\
  enabled (vm_registry (fst (setup_cpu_available_features env_rivos st))) ext_V = true.
Proof.
  cbv zeta. split; [reflexivity |].
  apply (setup_never_disables env_rivos (mkVMState (enable_feature ext_V 0 registry_init) 0 "")
           ext_V).
  reflexivity.
Defined.

Lemma is_rivos_vendor_features r : is_rivos (vendor_features r) = is_rivos r.
Proof.
  unfold is_rivos, enabled. rewrite vendor_features_at.
  destruct (is_rivos r); reflexivity.
Qed.

(** X5: the vendor overlay is idempotent: running [vendor_features] a
    second time changes no entry (it never touches [mvendorid], so the
    second run makes the same choice and writes the same values). *)
Theorem vendor_features_idempotent r f :
  vendor_features (vendor_features r) f = vendor_features r f.
Proof.
  rewrite (vendor_features_at (vendor_features r) f), is_rivos_vendor_features.
  rewrite (vendor_features_at r f).
  destruct (is_rivos r); [| reflexivity].
  destruct (feature_eqb satp_mode f); [reflexivity |].
  destruct (feature_eqb unaligned_access f); [reflexivity |].
  now destruct (existsb (feature_eqb f) rivos_bundle).
Qed.

Lemma finalize_loop_bits fl r buf x n :
  Z.testbit (snd (finalize_loop fl r buf x)) n =
  Z.testbit x n || existsb (fun f => enabled r f && Z.testbit (feature_bit f) n) fl.
Proof.
  revert buf x. induction fl as [|f fl IH]; intros buf x; cbn [finalize_loop existsb].
  - now rewrite orb_false_r.
  - destruct (enabled r f); cbn [andb]; rewrite IH; [| reflexivity].
    destruct (Z.eqb_spec (feature_bit f) 0) as [E | E].
    + rewrite E, Z.testbit_0_l. reflexivity.
    + rewrite Z.lor_spec. now rewrite orb_assoc.
Qed.

Lemma existsb_pointwise {A} (p q : A -> bool) l :
  (forall x, p x = q x) -> existsb p l = existsb q l.
Proof. intro H. induction l as [|x l IH]; cbn; [reflexivity | now rewrite H, IH]. Qed.

Lemma pow2_eqb k n : 0 <= k -> 0 <= n -> Z.eqb (2 ^ k) (2 ^ n) = Z.eqb k n.
Proof.
  intros Hk Hn. destruct (Z.eqb_spec k n) as [-> | E]; [apply Z.eqb_refl |].
  apply Z.eqb_neq. intro P. apply E. exact (Z.pow_inj_r 2 k n ltac:(lia) Hk Hn P).
Qed.

Lemma testbit_feature_bit f n :
  0 <= n -> Z.testbit (feature_bit f) n = Z.eqb (feature_bit f) (2 ^ n).
Proof.
  intro Hn. unfold feature_bit, nth_bit.
  destruct (Z.geb_spec (bit_num f) BitsPerWord) as [_ | _].
  - rewrite Z.testbit_0_l. symmetry. apply Z.eqb_neq.
    pose proof (Z.pow_pos_nonneg 2 n ltac:(lia) Hn). lia.
  - assert (Hb : 0 <= bit_num f) by (destruct f; vm_compute; discriminate).
    rewrite Z.shiftl_1_l, Z.pow2_bits_eqb by exact Hb. symmetry.
    now apply pow2_eqb.
Qed.

(** X6: bit [n] of [_features] after [setup_cpu_available_features] is
    set exactly when it was set before or some enabled entry's
    [feature_bit()] is [1 << n]; entries without a bit add nothing. *)
Theorem setup_features_bits env st n :
  0 <= n ->
  let st' := fst (setup_cpu_available_features env st) in
  Z.testbit (vm_features st') n =
  Z.testbit (vm_features st) n ||
  existsb (fun f => enabled (vm_registry st') f && Z.eqb (feature_bit f) (2 ^ n)) feature_list.
Proof.
  intro Hn. cbv zeta. rewrite setup_unfold. cbv zeta. cbn [fst vm_features vm_registry].
  rewrite finalize_loop_bits. f_equal. apply existsb_pointwise. intro f.
  now rewrite testbit_feature_bit.
Qed.

Lemma setup_features_bits_witness :
  0 <= 8 /\
  Z.testbit (vm_features (fst (setup_cpu_available_features (mkEnv None 256 None) vm_init))) 8 =
  Z.testbit (vm_features vm_init) 8 ||
  existsb (fun f => enabled (vm_registry (fst (setup_cpu_available_features
                                               (mkEnv None 256 None) vm_init))) f &&
                    Z.eqb (feature_bit f) (2 ^ 8)) feature_list.
Proof.
  split; [lia |]. exact (setup_features_bits (mkEnv None 256 None) vm_init 8 ltac:(lia)).
Defined.

Lemma string_length_app (a b : string) :
  String.length (a ++ b) = (String.length a + String.length b)%nat.
Proof. induction a as [|c a IH]; cbn; [reflexivity | now rewrite IH]. Qed.

Lemma substring_length_le n s : (String.length (String.substring 0 n s) <= n)%nat.
Proof.
  revert s. induction n as [|n IH]; intro s; destruct s as [|c s]; cbn; try lia.
  specialize (IH s). lia.
Qed.

Lemma uarch_prefix_length u : (String.length (uarch_prefix u) <= 511)%nat.
Proof.
  unfold uarch_prefix. destruct u as [u|]; cbn [String.length]; [| lia].
  destruct (negb (strcmp_eq u "")); [apply substring_length_le | cbn; lia].
Qed.

Lemma tokens_length fl r :
  (String.length (tokens fl r) <=
   fold_right (fun f acc =>
                 (if feature_string f then String.length (feature_token (pretty f)) else 0)
                 + acc)%nat 0%nat fl)%nat.
Proof.
  induction fl as [|f fl IH]; cbn [tokens fold_right]; [cbn; lia |].
  rewrite string_length_app.
  destruct (enabled r f), (feature_string f); cbn [andb String.length]; lia.
Qed.

(** X7: the features string [setup_cpu_available_features] assembles in
    [buf[1024]] always fits with its terminator: the micro-architecture
    prefix is cut at 511 characters by [snprintf], and "rv64" with every
    token adds at most [4 + token_budget] (84) characters. *)
Theorem features_string_fits_buffer env st :
  (String.length (vm_features_string (fst (setup_cpu_available_features env st))) <=
   511 + 4 + token_budget < 1024)%nat.
Proof.
  rewrite setup_unfold. cbv zeta. cbn [fst vm_features_string].
  rewrite finalize_loop_string, !string_length_app.
  pose proof (uarch_prefix_length (fst (os_uarch_additional_features (env_cpuinfo env)
                                         (fst (detect_isa env (vm_registry st)))))).
  pose proof (tokens_length feature_list
                (vendor_features (snd (os_uarch_additional_features (env_cpuinfo env)
                                         (fst (detect_isa env (vm_registry st))))))).
  change (fold_right _ 0%nat feature_list) with token_budget in *.
  assert (B : token_budget = 80%nat) by reflexivity.
  cbn [String.length]. rewrite B in *. lia.
Qed.

(** X8: [os_uarch_additional_features] changes no registry entry but
    [satp_mode]; it leaves the registry alone when /proc/cpuinfo cannot be
    opened, and otherwise always enables [satp_mode]. *)
Theorem os_uarch_additional_features_frame :
  (forall c r f, f <> satp_mode -> snd (os_uarch_additional_features c r) f = r f) /\
  (forall r, snd (os_uarch_additional_features None r) = r) /\
  (forall lines r, enabled (snd (os_uarch_additional_features (Some lines) r)) satp_mode = true).
Proof.
  split; [| split; [reflexivity |]].
  - intros c r f Hf. destruct c as [lines|]; [| reflexivity].
    rewrite os_uarch_additional_features_some. cbn [snd]. unfold enable_feature.
    destruct (feature_eqb satp_mode f) eqn:E; [| reflexivity].
    apply feature_eqb_true in E. congruence.
  - intros lines r. rewrite os_uarch_additional_features_some. cbn [snd].
    rewrite enabled_enable_feature. reflexivity.
Qed.

Lemma os_uarch_additional_features_frame_witness :
  ext_V <> satp_mode /\
  snd (os_uarch_additional_features (Some ["mmu : sv39"]) registry_init) ext_V =
  registry_init ext_V.
Proof.
  split; [discriminate |].
  exact (proj1 os_uarch_additional_features_frame (Some ["mmu : sv39"]) registry_init ext_V
           ltac:(discriminate)).
Defined.

Lemma first_field_none key lines :
  first_field key lines = None <->
  forall l, In l lines -> strchr l ":" = None \/ starts_with key l = false.
Proof.
  induction lines as [|x xs IH]; cbn [first_field In].
  - split; [intros _ l [] | reflexivity].
  - destruct (strchr x ":") as [p|] eqn:Hc.
    + destruct (starts_with key x) eqn:Hs.
      * split; [discriminate |]. intro H. destruct (H x (or_introl eq_refl)); congruence.
      * rewrite IH. split.
        -- intros H l [<- | Hl]; [now right | now apply H].
        -- intros H l Hl. apply H. now right.
    + rewrite IH. split.
      * intros H l [<- | Hl]; [now left | now apply H].
      * intros H l Hl. apply H. now right.
Qed.

(** X9: [os_uarch_additional_features] returns no micro-architecture name
    exactly when /proc/cpuinfo cannot be opened or none of its lines both
    holds a colon and starts with "uarch". *)
Theorem os_uarch_name_absent c r :
  fst (os_uarch_additional_features c r) = None <->
  c = None \/
  exists lines, c = Some lines /\
    forall l, In l lines -> strchr l ":" = None \/ starts_with "uarch" l = false.
Proof.
  destruct c as [lines|].
  - rewrite os_uarch_additional_features_some. cbn [fst]. unfold uarch_of_first.
    split.
    + intro H. right. exists lines. split; [reflexivity |].
      apply first_field_none. destruct (first_field "uarch" lines); [discriminate | reflexivity].
    + intros [H | [l' [E H]]]; [discriminate |]. injection E as <-.
      apply first_field_none in H. now rewrite H.
  - cbn. split; [now left | reflexivity].
Qed.

Lemma first_field_filter_colon key lines :
  first_field key (filter has_colon lines) = first_field key lines.
Proof.
  induction lines as [|x xs IH]; [reflexivity |].
  cbn [filter first_field]. unfold has_colon at 1.
  destruct (strchr x ":") as [p|] eqn:Hc; [| exact IH].
  cbn [first_field]. rewrite Hc. now rewrite IH.
Qed.

(** X10: lines of /proc/cpuinfo without a colon play no part: the scan
    gives the same translation mode and micro-architecture name when they
    are removed. *)
Theorem scan_ignores_colonless_lines lines :
  scan_fields (filter has_colon lines) = scan_fields lines.
Proof.
  rewrite !scan_fields_first. unfold mode_of_first, uarch_of_first.
  now rewrite !first_field_filter_colon.
Qed.

Lemma finalize_loop_features fl r buf x :
  snd (finalize_loop fl r buf x) =
  Z.lor x (fold_right Z.lor 0 (map (fun f => if enabled r f then feature_bit f else 0) fl)).
Proof.
  revert buf x. induction fl as [|f fl IH]; intros buf x; cbn [finalize_loop map fold_right].
  - now rewrite Z.lor_0_r.
  - destruct (enabled r f); rewrite IH; [| now rewrite Z.lor_0_l].
    destruct (Z.eqb_spec (feature_bit f) 0) as [E | E].
    + now rewrite E, Z.lor_0_l.
    + now rewrite Z.lor_assoc.
Qed.

Lemma land_pow2 k h : 0 <= k -> Z.land (2 ^ k) h = if Z.testbit h k then 2 ^ k else 0.
Proof.
  intro Hk. apply Z.bits_inj. intro m. rewrite Z.land_spec.
  destruct (Z.le_gt_cases 0 m) as [Hm | Hm];
    [| rewrite !Z.testbit_neg_r by exact Hm; now destruct (Z.testbit h k)].
  rewrite Z.pow2_bits_eqb by exact Hk.
  destruct (Z.eqb_spec k m) as [<- | E].
  - destruct (Z.testbit h k); cbn [andb];
      [now rewrite Z.pow2_bits_eqb, Z.eqb_refl | now rewrite Z.testbit_0_l].
  - destruct (Z.testbit h k); cbn [andb]; [| now rewrite Z.testbit_0_l].
    rewrite Z.pow2_bits_eqb by exact Hk. symmetry. now apply Z.eqb_neq.
Qed.

Lemma land_feature_bit f h :
  Z.land (feature_bit f) h = if Z.eqb (Z.land (feature_bit f) h) 0 then 0 else feature_bit f.
Proof.
  unfold feature_bit, nth_bit. destruct (Z.geb_spec (bit_num f) BitsPerWord).
  - now rewrite Z.land_0_l.
  - assert (Hb : 0 <= bit_num f) by (destruct f; vm_compute; discriminate).
    rewrite Z.shiftl_1_l, land_pow2 by exact Hb.
    destruct (Z.testbit h (bit_num f)); [| reflexivity].
    pose proof (Z.pow_pos_nonneg 2 (bit_num f) ltac:(lia) Hb) as P.
    destruct (Z.eqb_spec (2 ^ bit_num f) 0); [lia | reflexivity].
Qed.

Lemma fold_lor_land h fl :
  fold_right Z.lor 0 (map (fun f => Z.land (feature_bit f) h) fl) =
  Z.land h (fold_right Z.lor 0 (map feature_bit fl)).
Proof.
  induction fl as [|f fl IH]; cbn [map fold_right]; [now rewrite Z.land_0_r |].
  now rewrite IH, Z.land_lor_distr_r, (Z.land_comm h (feature_bit f)).
Qed.

(** X11: when the hwprobe fails and detection starts from the initial
    state, [_features] ends up as [AT_HWCAP] restricted to the bits the
    registry maps, whatever /proc/cpuinfo holds. *)
Theorem setup_features_mirror_hwcap env :
  env_hwprobe env = None ->
  vm_features (fst (setup_cpu_available_features env vm_init)) =
  Z.land (env_hwcap env) hwcap_mapped_mask.
Proof.
  intro H. rewrite setup_unfold. cbv zeta. cbn [fst vm_features vm_registry vm_init].
  rewrite finalize_loop_features, Z.lor_0_l.
  unfold hwcap_mapped_mask. rewrite <- fold_lor_land. f_equal. apply map_ext. intro f.
  unfold detect_isa, probe_features. rewrite H. cbn [fst].
  set (r2 := snd (os_uarch_additional_features (env_cpuinfo env)
                   (os_aux_features (env_hwcap env) registry_init))).
  assert (F : forall g, g <> satp_mode -> r2 g = os_aux_features (env_hwcap env) registry_init g).
  { intros g Hg. unfold r2. destruct (env_cpuinfo env) as [lines|]; [| reflexivity].
    rewrite os_uarch_additional_features_some. cbn [snd]. unfold enable_feature.
    destruct (feature_eqb satp_mode g) eqn:E; [| reflexivity].
    apply feature_eqb_true in E. congruence. }
  assert (R : is_rivos r2 = false).
  { unfold is_rivos, enabled. rewrite F by discriminate. rewrite os_aux_features_at.
    reflexivity. }
  unfold enabled. rewrite vendor_features_at, R.
  destruct (Z.eqb_spec (feature_bit f) 0) as [Z0 | NZ].
  - rewrite Z0, Z.land_0_l. now destruct (f_enabled (r2 f)).
  - assert (Hf : f <> satp_mode) by (intros ->; apply NZ; reflexivity).
    rewrite F by exact Hf. rewrite os_aux_features_at.
    destruct (Z.eqb (Z.land (feature_bit f) (env_hwcap env)) 0) eqn:E; cbn [f_enabled].
    + apply Z.eqb_eq in E. now rewrite E.
    + now rewrite land_feature_bit, E.
Qed.

Lemma setup_features_mirror_hwcap_witness :
  env_hwprobe (mkEnv None 4352 (Some ["mmu : sv39"])) = None /\
  vm_features (fst (setup_cpu_available_features (mkEnv None 4352 (Some ["mmu : sv39"])) vm_init)) =
  Z.land 4352 hwcap_mapped_mask.
Proof.
  split; [reflexivity |].
  exact (setup_features_mirror_hwcap (mkEnv None 4352 (Some ["mmu : sv39"])) eq_refl).
Defined.

End ExtraProofs.
